(** * Stopwatch: a shallow embedding of [src/src/App.tsx]

    The timekeeping and lap bookkeeping of the [App] component:
    [formatTime], [startStopwatch], [pauseStopwatch], [resetStopwatch],
    [recordLap], [clearLaps], the 10 ms sampling interval and the teardown
    effect.  React state ([time], [isRunning], [lapTimes]) and refs
    ([intervalRef], [startTimeRef], [lapCounter]) become fields of one
    record; the browser's timer table (the intervals that are still live)
    and the wall clock ([Date.now()]) are part of the state as well, so that
    [setInterval]/[clearInterval] and the timer callbacks are explicit. *)

From Stdlib Require Import ZArith NArith List String Ascii Lia.
Import ListNotations.
Open Scope bool_scope.
Open Scope Z_scope.

(** ** Number formatting: [Number.prototype.toString] and [padStart] *)
Module Format.

Definition digit_char (d : N) : ascii :=
  ascii_of_N (48 + d).

(** Decimal digits of [n], most significant first, prepended to [acc].
    [fuel] bounds the number of divisions by 10. *)
Fixpoint digits_of (fuel : nat) (n : N) (acc : string) : string :=
  match fuel with
  | O => String (digit_char n) acc
  | S fuel' =>
      if (n <? 10)%N then String (digit_char n) acc
      else digits_of fuel' (n / 10)%N (String (digit_char (n mod 10)) acc)
  end.

(** [n.toString()] for a non-negative integer [n]. *)
Definition N_toString (n : N) : string :=
  digits_of (N.to_nat n) n EmptyString.

(** [x.toString()] for an integer [x]. *)
Definition toString (x : Z) : string :=
  if x <? 0 then String "-" (N_toString (Z.to_N (- x)))
  else N_toString (Z.to_N x).

Fixpoint repeat_char (k : nat) (c : ascii) : string :=
  match k with
  | O => EmptyString
  | S k' => String c (repeat_char k' c)
  end.

(** [s.padStart(target, c)] for a one-character pad string [c]. *)
Definition padStart (s : string) (target : nat) (c : ascii) : string :=
  append (repeat_char (target - String.length s) c) s.

(** [formatTime] (App.tsx, lines 43-51); JavaScript's [Math.floor(a / b)]
    on integers with [b > 0] is [Z.div], and [%] is [Z.rem]. *)
Definition formatTime (timeMs : Z) : string :=
  let minutes := timeMs / 60000 in
  let seconds := Z.rem timeMs 60000 / 1000 in
  let milliseconds := Z.rem timeMs 1000 / 10 in
  padStart (toString minutes) 2 "0"
  ++ ":" ++ padStart (toString seconds) 2 "0"
  ++ "." ++ padStart (toString milliseconds) 2 "0".

(** Reading a string of decimal digits back: [None] on a non-digit. *)
Definition digit_val (c : ascii) : option N :=
  let k := N_of_ascii c in
  if (48 <=? k)%N && (k <=? 57)%N then Some (k - 48)%N else None.

Fixpoint dec_value_from (v : N) (s : string) : option N :=
  match s with
  | EmptyString => Some v
  | String c s' =>
      match digit_val c with
      | Some d => dec_value_from (v * 10 + d)%N s'
      | None => None
      end
  end.

Definition dec_value (s : string) : option N := dec_value_from 0%N s.

End Format.

(** ** The stopwatch component *)
Module Stopwatch.

(** [interface LapTime] (App.tsx, lines 4-9). *)
Record LapTime := mkLap {
  id : Z;
  lapNumber : Z;
  lapTime : Z;
  totalTime : Z
}.

(** The component's state and refs, plus the browser's live interval
    handles ([timers]), the next handle [setInterval] hands out, the wall
    clock [clock] ([Date.now()]) and whether the component is mounted.
    Interval handles are positive, hence truthy, as in browsers. *)
Record state := mkState {
  time : Z;
  isRunning : bool;
  lapTimes : list LapTime;
  intervalRef : option N;
  startTimeRef : Z;
  lapCounter : Z;
  timers : list N;
  next_handle : N;
  clock : Z;
  mounted : bool
}.

(** First render: [useState(0)], [useState(false)], [useState([])],
    [useRef(null)], [useRef(0)], [useRef(1)]. *)
Definition init (now : Z) : state :=
  mkState 0 false [] None 0 1 [] 1%N now true.

(** [setInterval]: registers a live handle and returns it. *)
Definition setInterval (s : state) : N * state :=
  let h := next_handle s in
  (h, mkState (time s) (isRunning s) (lapTimes s) (intervalRef s)
        (startTimeRef s) (lapCounter s) (h :: timers s) (h + 1)%N
        (clock s) (mounted s)).

(** [clearInterval h]: the handle is no longer live. *)
Definition clearInterval (h : N) (s : state) : state :=
  mkState (time s) (isRunning s) (lapTimes s) (intervalRef s)
    (startTimeRef s) (lapCounter s) (remove N.eq_dec h (timers s))
    (next_handle s) (clock s) (mounted s).

(** [if (intervalRef.current) { clearInterval(...); intervalRef.current = null; }] *)
Definition stopInterval (s : state) : state :=
  match intervalRef s with
  | Some h =>
      let s := clearInterval h s in
      mkState (time s) (isRunning s) (lapTimes s) None
        (startTimeRef s) (lapCounter s) (timers s)
        (next_handle s) (clock s) (mounted s)
  | None => s
  end.

(** [startStopwatch] (lines 128-137). *)
Definition startStopwatch (s : state) : state :=
  if negb (isRunning s) then
    let startTime := clock s - time s in
    let '(h, s) := setInterval s in
    mkState (time s) true (lapTimes s) (Some h) startTime (lapCounter s)
      (timers s) (next_handle s) (clock s) (mounted s)
  else s.

(** [pauseStopwatch] (lines 139-146). *)
Definition pauseStopwatch (s : state) : state :=
  let s := stopInterval s in
  mkState (time s) false (lapTimes s) (intervalRef s) (startTimeRef s)
    (lapCounter s) (timers s) (next_handle s) (clock s) (mounted s).

(** [resetStopwatch] (lines 148-158). *)
Definition resetStopwatch (s : state) : state :=
  let s := stopInterval s in
  mkState 0 false [] (intervalRef s) (startTimeRef s) 1
    (timers s) (next_handle s) (clock s) (mounted s).

Definition last_totalTime (l : list LapTime) : Z :=
  match rev l with
  | [] => 0
  | e :: _ => totalTime e
  end.

(** [recordLap] (lines 160-172). *)
Definition recordLap (s : state) : state :=
  if isRunning s && (0 <? time s) then
    let newLap :=
      mkLap (clock s) (lapCounter s)
        (if (0 <? Z.of_nat (List.length (lapTimes s)))
         then time s - last_totalTime (lapTimes s) else time s)
        (time s) in
    mkState (time s) (isRunning s) (lapTimes s ++ [newLap]) (intervalRef s)
      (startTimeRef s) (lapCounter s + 1) (timers s) (next_handle s)
      (clock s) (mounted s)
  else s.

(** [clearLaps] (lines 174-178). *)
Definition clearLaps (s : state) : state :=
  mkState (time s) (isRunning s) [] (intervalRef s) (startTimeRef s) 1
    (timers s) (next_handle s) (clock s) (mounted s).

(** The interval callback [() => setTime(Date.now() - startTimeRef.current)],
    run by the browser only for a live handle. *)
Definition tick (h : N) (s : state) : state :=
  if existsb (N.eqb h) (timers s) then
    mkState (clock s - startTimeRef s) (isRunning s) (lapTimes s)
      (intervalRef s) (startTimeRef s) (lapCounter s) (timers s)
      (next_handle s) (clock s) (mounted s)
  else s.

(** The wall clock advances by [d] milliseconds. *)
Definition advance (d : N) (s : state) : state :=
  mkState (time s) (isRunning s) (lapTimes s) (intervalRef s)
    (startTimeRef s) (lapCounter s) (timers s) (next_handle s)
    (clock s + Z.of_N d) (mounted s).

(** Teardown effect (lines 210-216): clears the interval, does not null
    the ref; the component is gone. *)
Definition unmount (s : state) : state :=
  let s := match intervalRef s with
           | Some h => clearInterval h s
           | None => s
           end in
  mkState (time s) (isRunning s) (lapTimes s) (intervalRef s)
    (startTimeRef s) (lapCounter s) (timers s) (next_handle s)
    (clock s) false.

(** Events reaching the component while it is mounted: the buttons and
    keyboard shortcuts, the interval callbacks and the passing of time. *)
Inductive event :=
| Start
| Pause
| Reset
| Lap
| Clear
| Tick (h : N)
| Advance (d : N).

Definition step (s : state) (e : event) : state :=
  match e with
  | Start => startStopwatch s
  | Pause => pauseStopwatch s
  | Reset => resetStopwatch s
  | Lap => recordLap s
  | Clear => clearLaps s
  | Tick h => tick h s
  | Advance d => advance d s
  end.

Definition run (evs : list event) (s : state) : state :=
  fold_left step evs s.

Definition reachable (s : state) : Prop :=
  exists now evs, s = run evs (init now).

(** Space key handler (lines 183-190). *)
Definition onSpace (s : state) : state :=
  if isRunning s then pauseStopwatch s else startStopwatch s.

End Stopwatch.

(** ** Keyboard shortcuts, button states, lap list and particles *)
Module View.
Import Stopwatch.

(** The fields of a [KeyboardEvent] that [handleKeyPress] reads. *)
Record keyEvent := mkKey {
  code : string;
  ctrlKey : bool;
  metaKey : bool
}.

(** [handleKeyPress] (lines 181-204): the new state, and whether
    [event.preventDefault()] was called. *)
Definition handleKeyPress (ev : keyEvent) (s : state) : state * bool :=
  if String.eqb (code ev) "Space" then
    ((if isRunning s then pauseStopwatch s else startStopwatch s), true)
  else if String.eqb (code ev) "KeyR" then
    if ctrlKey ev || metaKey ev then (resetStopwatch s, true) else (s, false)
  else if String.eqb (code ev) "KeyL" then
    if ctrlKey ev || metaKey ev then (recordLap s, true) else (s, false)
  else (s, false).


(** [disabled={lapTimes.length === 0}] on the Clear button. *)
Definition clearButtonDisabled (s : state) : bool :=
  Nat.eqb (List.length (lapTimes s)) 0.

(** One rendered lap row: the [index] of [map], the [key], ["Lap n"], the
    split, the total, and whether the row has the lighter background. *)
Record lapRow := mkRow {
  rowIndex : nat;
  rowKey : Z;
  rowNumber : Z;
  rowSplit : string;
  rowTotal : string;
  rowStriped : bool
}.

Fixpoint rows_from (index : nat) (l : list LapTime) : list lapRow :=
  match l with
  | [] => []
  | lap :: l' =>
      mkRow index (id lap) (lapNumber lap) (Format.formatTime (lapTime lap))
        (Format.formatTime (totalTime lap)) (Nat.eqb (Nat.modulo index 2) 0)
      :: rows_from (S index) l'
  end.

(** [lapTimes.slice().reverse().map((lap, index) => ...)] (lines 378-405),
    rendered only when [lapTimes.length > 0]. *)
Definition lapRows (s : state) : list lapRow :=
  if Nat.ltb 0 (List.length (lapTimes s)) then rows_from 0 (rev (lapTimes s))
  else [].

(** The particle animation (lines 109-126), over the number type of the
    host: [add], [sub] and the comparison [gt] are JavaScript's [+], [-]
    and [>]. *)
Section Particles.
Variable num : Type.
Variables (add sub : num -> num -> num) (gt : num -> num -> bool).
Variables (zero two_hundredths tenth : num).




End Particles.

End View.

(** * Properties of [formatTime] *)
Module FormatFacts.
Local Open Scope string_scope.
Import Format.

Lemma append_assoc_str (a b c : string) : (a ++ b) ++ c = a ++ (b ++ c).
Proof. induction a as [|x a IH]; simpl; [reflexivity | now rewrite IH]. Qed.

Lemma length_append_str (a b : string) :
  String.length (a ++ b) = (String.length a + String.length b)%nat.
Proof. induction a as [|x a IH]; simpl; [reflexivity | now rewrite IH]. Qed.

Lemma digits_of_acc fuel : forall n acc,
  digits_of fuel n acc = (digits_of fuel n EmptyString ++ acc)%string.
Proof.
  induction fuel as [|fuel IH]; intros n acc; simpl; [reflexivity|].
  destruct (n <? 10)%N; [reflexivity|].
  rewrite (IH _ (String _ acc)), (IH _ (String _ EmptyString)).
  rewrite append_assoc_str. reflexivity.
Qed.

Lemma digits_of_length fuel : forall n acc,
  (S (String.length acc) <= String.length (digits_of fuel n acc))%nat.
Proof.
  induction fuel as [|fuel IH]; intros n acc; simpl; [lia|].
  destruct (n <? 10)%N; simpl; [lia|].
  specialize (IH (n / 10)%N (String (digit_char (n mod 10)) acc)).
  simpl in IH. lia.
Qed.

Lemma dec_value_from_app (a b : string) : forall v,
  dec_value_from v (a ++ b) =
  match dec_value_from v a with Some w => dec_value_from w b | None => None end.
Proof.
  induction a as [|c a IH]; intros v; simpl; [reflexivity|].
  destruct (digit_val c); [apply IH | reflexivity].
Qed.

Lemma digit_val_char (d : N) : (d < 10)%N -> digit_val (digit_char d) = Some d.
Proof.
  intros Hd. unfold digit_val, digit_char.
  rewrite Ascii.N_ascii_embedding by lia.
  replace ((48 <=? 48 + d)%N && (48 + d <=? 57)%N) with true
    by (symmetry; apply andb_true_intro; split; apply N.leb_le; lia).
  f_equal. lia.
Qed.

Lemma digits_of_value fuel : forall n,
  (n <= N.of_nat fuel)%N ->
  dec_value (digits_of fuel n EmptyString) = Some n.
Proof.
  unfold dec_value.
  induction fuel as [|fuel IH]; intros n Hn.
  - assert (n = 0%N) as -> by lia. reflexivity.
  - simpl. destruct (N.ltb_spec n 10) as [Hlt|Hge].
    + simpl. rewrite digit_val_char by exact Hlt. reflexivity.
    + rewrite digits_of_acc, dec_value_from_app.
      rewrite IH.
      * simpl. rewrite digit_val_char by (apply N.mod_lt; lia).
        f_equal. rewrite N.mul_comm, <- N.div_mod; lia.
      * assert (n / 10 < n)%N by (apply N.div_lt; lia). lia.
Qed.

Lemma N_toString_value (n : N) : dec_value (N_toString n) = Some n.
Proof. apply digits_of_value. lia. Qed.

Lemma N_toString_length (n : N) : (1 <= String.length (N_toString n))%nat.
Proof. apply (digits_of_length _ n EmptyString). Qed.

Lemma N_toString_length_small (n : N) :
  (n < 100)%N -> (String.length (N_toString n) <= 2)%nat.
Proof.
  intros Hn.
  assert (Hall : forallb (fun k => Nat.leb (String.length (N_toString (N.of_nat k))) 2)
                   (seq 0 100) = true) by (vm_compute; reflexivity).
  rewrite forallb_forall in Hall.
  specialize (Hall (N.to_nat n)). rewrite N2Nat.id in Hall.
  apply Nat.leb_le, Hall, in_seq. lia.
Qed.

Lemma toString_nonneg (x : Z) : 0 <= x -> toString x = N_toString (Z.to_N x).
Proof.
  intros Hx. unfold toString. destruct (Z.ltb_spec x 0); [lia | reflexivity].
Qed.

Lemma repeat_zero_value (k : nat) (s : string) :
  dec_value (repeat_char k "0" ++ s) = dec_value s.
Proof. induction k as [|k IH]; [reflexivity | exact IH]. Qed.

Lemma repeat_char_length (k : nat) (c : ascii) :
  String.length (repeat_char k c) = k.
Proof. induction k as [|k IH]; simpl; [reflexivity | now rewrite IH]. Qed.

Lemma padStart_value (s : string) (k : nat) :
  dec_value (padStart s k "0") = dec_value s.
Proof. apply repeat_zero_value. Qed.

Lemma padStart_length (s : string) (k : nat) :
  String.length (padStart s k "0") = Nat.max k (String.length s).
Proof.
  unfold padStart. rewrite length_append_str, repeat_char_length. lia.
Qed.

Lemma padded_field (x : Z) (bound : Z) :
  0 <= x -> x < bound -> bound <= 100 ->
  String.length (padStart (toString x) 2 "0") = 2%nat /\
  dec_value (padStart (toString x) 2 "0") = Some (Z.to_N x).
Proof.
  intros H0 H1 H2. rewrite toString_nonneg by exact H0. split.
  - rewrite padStart_length.
    pose proof (N_toString_length_small (Z.to_N x)) as Hs.
    assert (String.length (N_toString (Z.to_N x)) <= 2)%nat by (apply Hs; lia).
    lia.
  - rewrite padStart_value. apply N_toString_value.
Qed.

(** C3: for every [t >= 0], [formatTime t] is [MM ++ ":" ++ SS ++ "." ++ CC]
    where each field is a string of decimal digits: [MM] has at least two
    digits (exactly two below 100 minutes) and reads as [t / 60000]
    (floor), [SS] has two digits and reads as [(t mod 60000) / 1000], [CC]
    has two digits and reads as [(t mod 1000) / 10]; moreover
    [formatTime 61005 = "01:01.00"] and [formatTime 999 = "00:00.99"]. *)
Theorem formatTime_fields (t : Z) (Ht : 0 <= t) :
  exists mm ss cc : string,
    formatTime t = mm ++ ":" ++ ss ++ "." ++ cc /\
    (2 <= String.length mm)%nat /\
    (t < 6000000 -> String.length mm = 2%nat) /\
    dec_value mm = Some (Z.to_N (t / 60000)) /\
    String.length ss = 2%nat /\
    dec_value ss = Some (Z.to_N ((t mod 60000) / 1000)) /\
    String.length cc = 2%nat /\
    dec_value cc = Some (Z.to_N ((t mod 1000) / 10)) /\
    formatTime 61005 = "01:01.00" /\ formatTime 999 = "00:00.99".
Proof.
  rewrite <- !Z.rem_mod_nonneg by lia.
  eexists _, _, _. split; [reflexivity|].
  assert (Hm : 0 <= t / 60000) by (apply Z.div_pos; lia).
  assert (Hr1 : 0 <= Z.rem t 60000 < 60000)
    by (rewrite Z.rem_mod_nonneg by lia; apply Z.mod_pos_bound; lia).
  assert (Hr2 : 0 <= Z.rem t 1000 < 1000)
    by (rewrite Z.rem_mod_nonneg by lia; apply Z.mod_pos_bound; lia).
  destruct (padded_field (Z.rem t 60000 / 1000) 60) as [Ls Vs];
    [apply Z.div_pos; lia | apply Z.div_lt_upper_bound; lia | lia |].
  destruct (padded_field (Z.rem t 1000 / 10) 100) as [Lc Vc];
    [apply Z.div_pos; lia | apply Z.div_lt_upper_bound; lia | lia |].
  rewrite toString_nonneg by exact Hm.
  repeat split; try assumption; try reflexivity.
  - rewrite padStart_length. lia.
  - intros Hsmall. rewrite padStart_length.
    assert (String.length (N_toString (Z.to_N (t / 60000))) <= 2)%nat
      by (apply N_toString_length_small;
          assert (t / 60000 < 100) by (apply Z.div_lt_upper_bound; lia); lia).
    pose proof (N_toString_length (Z.to_N (t / 60000))). lia.
  - rewrite padStart_value. apply N_toString_value.
Qed.

Lemma formatTime_fields_witness :
  0 <= 61005 /\
  exists mm ss cc : string,
    formatTime 61005 = mm ++ ":" ++ ss ++ "." ++ cc /\
    dec_value mm = Some 1%N /\ dec_value ss = Some 1%N /\ dec_value cc = Some 0%N.
Proof.
  assert (H : 0 <= 61005) by lia.
  split; [exact H|].
  destruct (formatTime_fields 61005 H)
    as [mm [ss [cc [E [_ [_ [Vm [_ [Vs [_ [Vc _]]]]]]]]]]].
  exists mm, ss, cc. split; [exact E|].
  rewrite Vm, Vs, Vc. repeat split.
Defined.

End FormatFacts.

(** * The state invariant of reachable stopwatch states *)
Module StopwatchFacts.
Import Stopwatch.

Definition sum_lapTime (l : list LapTime) : Z :=
  fold_right (fun e acc => lapTime e + acc) 0 l.

(** [totalTime] never decreases along the lap list. *)
Definition totals_nondecreasing (l : list LapTime) : Prop :=
  forall i j a b, (i < j)%nat -> nth_error l i = Some a -> nth_error l j = Some b ->
  totalTime a <= totalTime b.

Definition totals_increasing (l : list LapTime) : Prop :=
  forall i j a b, (i < j)%nat -> nth_error l i = Some a -> nth_error l j = Some b ->
  totalTime a < totalTime b.

Definition numbered (l : list LapTime) : Prop :=
  forall i e, nth_error l i = Some e -> lapNumber e = Z.of_nat i + 1.

Record inv (s : state) : Prop := {
  inv_interval :
    if isRunning s then exists h, intervalRef s = Some h /\ timers s = [h]
    else intervalRef s = None /\ timers s = [];
  inv_handles : Forall (fun h => (h < next_handle s)%N) (timers s);
  inv_origin : isRunning s = true -> time s <= clock s - startTimeRef s;
  inv_time_nonneg : 0 <= time s;
  inv_counter : lapCounter s = Z.of_nat (List.length (lapTimes s)) + 1;
  inv_numbered : numbered (lapTimes s);
  inv_below : Forall (fun e => totalTime e <= time s) (lapTimes s);
  inv_sorted : totals_nondecreasing (lapTimes s);
  inv_sum : sum_lapTime (lapTimes s) = last_totalTime (lapTimes s)
}.

Lemma last_totalTime_snoc (l : list LapTime) (e : LapTime) :
  last_totalTime (l ++ [e]) = totalTime e.
Proof. unfold last_totalTime. rewrite rev_app_distr. reflexivity. Qed.

Lemma sum_lapTime_snoc (l : list LapTime) (e : LapTime) :
  sum_lapTime (l ++ [e]) = sum_lapTime l + lapTime e.
Proof.
  unfold sum_lapTime. rewrite fold_right_app. simpl.
  induction l as [|x l IH]; simpl; [lia | rewrite IH; lia].
Qed.

Lemma nth_error_snoc (l : list LapTime) (e : LapTime) i x :
  nth_error (l ++ [e]) i = Some x ->
  (i < List.length l /\ nth_error l i = Some x)%nat \/ (i = List.length l /\ x = e).
Proof.
  intros H. destruct (Nat.lt_ge_cases i (List.length l)) as [Hi|Hi].
  - left. rewrite nth_error_app1 in H by exact Hi. auto.
  - right. rewrite nth_error_app2 in H by exact Hi.
    destruct (i - List.length l)%nat as [|k] eqn:E; simpl in H.
    + split; [lia | congruence].
    + destruct k; discriminate.
Qed.

Lemma numbered_snoc (l : list LapTime) (e : LapTime) :
  numbered l -> lapNumber e = Z.of_nat (List.length l) + 1 -> numbered (l ++ [e]).
Proof.
  intros Hl He i x Hx. apply nth_error_snoc in Hx as [[_ Hx]|[-> ->]]; auto.
Qed.

Lemma sorted_snoc (l : list LapTime) (e : LapTime) :
  totals_nondecreasing l -> Forall (fun x => totalTime x <= totalTime e) l ->
  totals_nondecreasing (l ++ [e]).
Proof.
  intros Hl Hb i j a b Hij Ha Hb'.
  apply nth_error_snoc in Ha as [[Hi Ha]|[Hi ->]];
    apply nth_error_snoc in Hb' as [[Hj Hb']|[Hj ->]].
  - eauto.
  - rewrite Forall_forall in Hb. apply Hb. eapply nth_error_In; eauto.
  - lia.
  - lia.
Qed.

Lemma Forall_weaken_time (l : list LapTime) (x y : Z) :
  x <= y -> Forall (fun e => totalTime e <= x) l -> Forall (fun e => totalTime e <= y) l.
Proof. intros Hxy. apply Forall_impl. intros e He. lia. Qed.

Lemma remove_single (h : N) : remove N.eq_dec h [h] = [].
Proof. simpl. destruct (N.eq_dec h h); [reflexivity | congruence]. Qed.

(** After [stopInterval] no interval is live. *)
Lemma stopInterval_clears (s : state) :
  inv s ->
  intervalRef (stopInterval s) = None /\ timers (stopInterval s) = [].
Proof.
  intros [Hi _ _ _ _ _ _ _ _]. unfold stopInterval.
  destruct (isRunning s).
  - destruct Hi as [h [Hr Ht]]. rewrite Hr. simpl. rewrite Ht, remove_single. auto.
  - destruct Hi as [Hr Ht]. rewrite Hr. auto.
Qed.

Lemma init_inv (now : Z) : inv (init now).
Proof.
  constructor; simpl; auto; try discriminate; try lia.
  - intros i e He. destruct i; discriminate.
  - intros i j a b _ Ha. destruct i; discriminate.
Qed.

Lemma stopInterval_eq (s : state) :
  inv s ->
  stopInterval s = mkState (time s) (isRunning s) (lapTimes s) None
    (startTimeRef s) (lapCounter s) [] (next_handle s) (clock s) (mounted s).
Proof.
  intros Hs. pose proof (stopInterval_clears s Hs) as [Hr Ht].
  destruct s as [tm r l ir st c ts nh ck m]; simpl in *.
  unfold stopInterval in *; simpl in *.
  destruct ir; simpl in *; [rewrite Ht | subst]; reflexivity.
Qed.

Lemma start_inv (s : state) : inv s -> inv (startStopwatch s).
Proof.
  intros Hs. unfold startStopwatch.
  destruct (isRunning s) eqn:R; [exact Hs|].
  destruct Hs as [Hi Hh Ho Hn Hc Hnum Hb Hso Hsum].
  rewrite R in Hi. destruct Hi as [Hr Ht]. simpl. rewrite Ht.
  constructor; simpl; auto.
  - eauto.
  - constructor; [lia | constructor].
  - intros _. lia.
Qed.

Lemma pause_inv (s : state) : inv s -> inv (pauseStopwatch s).
Proof.
  intros Hs. unfold pauseStopwatch. rewrite (stopInterval_eq s Hs).
  destruct Hs as [Hi Hh Ho Hn Hc Hnum Hb Hso Hsum].
  constructor; simpl; auto; discriminate.
Qed.

Lemma reset_inv (s : state) : inv s -> inv (resetStopwatch s).
Proof.
  intros Hs. unfold resetStopwatch. rewrite (stopInterval_eq s Hs).
  destruct Hs as [Hi Hh Ho Hn Hc Hnum Hb Hso Hsum].
  constructor; simpl; auto; try discriminate; try lia.
  - intros i e He. destruct i; discriminate.
  - intros i j a b _ Ha. destruct i; discriminate.
Qed.

Lemma recordLap_inv (s : state) : inv s -> inv (recordLap s).
Proof.
  intros Hs. unfold recordLap.
  destruct (isRunning s && (0 <? time s)) eqn:G; [|exact Hs].
  destruct Hs as [Hi Hh Ho Hn Hc Hnum Hb Hso Hsum].
  constructor; simpl; auto.
  - rewrite length_app. simpl. lia.
  - apply numbered_snoc; [exact Hnum | simpl; exact Hc].
  - apply Forall_app. split; [exact Hb | constructor; simpl; [lia | constructor]].
  - apply sorted_snoc; [exact Hso | exact Hb].
  - rewrite sum_lapTime_snoc, last_totalTime_snoc, Hsum. simpl.
    destruct (0 <? Z.of_nat (List.length (lapTimes s))) eqn:L; [lia|].
    apply Z.ltb_ge in L.
    destruct (lapTimes s) as [|x l]; [reflexivity | simpl in L; lia].
Qed.

Lemma clearLaps_inv (s : state) : inv s -> inv (clearLaps s).
Proof.
  intros [Hi Hh Ho Hn Hc Hnum Hb Hso Hsum].
  constructor; simpl; auto.
  - intros i e He. destruct i; discriminate.
  - intros i j a b _ Ha. destruct i; discriminate.
Qed.

Lemma tick_inv (h : N) (s : state) : inv s -> inv (tick h s).
Proof.
  intros Hs. unfold tick.
  destruct (existsb (N.eqb h) (timers s)) eqn:L; [|exact Hs].
  destruct Hs as [Hi Hh Ho Hn Hc Hnum Hb Hso Hsum].
  destruct (isRunning s) eqn:R.
  - specialize (Ho eq_refl).
    constructor; simpl; rewrite ?R; auto; try lia.
    apply (Forall_weaken_time _ (time s)); [lia | exact Hb].
  - destruct Hi as [_ Ht]. rewrite Ht in L. discriminate.
Qed.

Lemma advance_inv (d : N) (s : state) : inv s -> inv (advance d s).
Proof.
  intros [Hi Hh Ho Hn Hc Hnum Hb Hso Hsum].
  constructor; simpl; auto.
  intros R. specialize (Ho R). lia.
Qed.

Lemma step_inv (s : state) (e : event) : inv s -> inv (step s e).
Proof.
  destruct e; simpl.
  - apply start_inv.
  - apply pause_inv.
  - apply reset_inv.
  - apply recordLap_inv.
  - apply clearLaps_inv.
  - apply tick_inv.
  - apply advance_inv.
Qed.

Lemma run_inv (evs : list event) : forall s, inv s -> inv (run evs s).
Proof.
  induction evs as [|e evs IH]; intros s Hs; simpl; [exact Hs|].
  apply IH, step_inv, Hs.
Qed.

Lemma reachable_inv (s : state) : reachable s -> inv s.
Proof. intros [now [evs ->]]. apply run_inv, init_inv. Qed.

Lemma run_app (evs1 evs2 : list event) (s : state) :
  run (evs1 ++ evs2) s = run evs2 (run evs1 s).
Proof. unfold run. apply fold_left_app. Qed.

Lemma reachable_step (s : state) (e : event) :
  reachable s -> reachable (step s e).
Proof.
  intros [now [evs ->]]. exists now, (evs ++ [e]).
  rewrite run_app. reflexivity.
Qed.

End StopwatchFacts.

(** * Lemmas about runs that keep the interval alive or cancel it *)
Module RunFacts.
Import Stopwatch StopwatchFacts.

(** Events that neither pause nor reset. *)
Definition no_stop (e : event) : bool :=
  match e with
  | Pause | Reset => false
  | _ => true
  end.

Lemma running_preserved (h : N) (origin : Z) (evs : list event) : forall s,
  forallb no_stop evs = true ->
  isRunning s = true -> intervalRef s = Some h -> In h (timers s) ->
  startTimeRef s = origin ->
  let s' := run evs s in
  isRunning s' = true /\ intervalRef s' = Some h /\ In h (timers s') /\
  startTimeRef s' = origin.
Proof.
  induction evs as [|e evs IH]; intros s Hev R Hi Ht Ho; simpl; [auto|].
  simpl in Hev. apply Bool.andb_true_iff in Hev as [He Hev].
  apply IH; [exact Hev| | | |];
    destruct e; try discriminate; simpl;
    unfold startStopwatch, recordLap, tick;
    rewrite ?R; simpl; auto;
    try (destruct (0 <? time s); simpl; auto);
    try (destruct (existsb (N.eqb h0) (timers s)); simpl; auto).
Qed.

Lemma in_existsb (h : N) (l : list N) : In h l -> existsb (N.eqb h) l = true.
Proof.
  intros H. apply existsb_exists. exists h. split; [exact H | apply N.eqb_refl].
Qed.

Lemma not_in_existsb (h : N) (l : list N) :
  ~ In h l -> existsb (N.eqb h) l = false.
Proof.
  intros H. destruct (existsb (N.eqb h) l) eqn:E; [|reflexivity].
  apply existsb_exists in E as [x [Hx Heq]]. apply N.eqb_eq in Heq. subst x.
  contradiction.
Qed.

(** No handle below [k] becomes live again once none is. *)
Definition handles_from (k : N) (s : state) : Prop :=
  (forall x, In x (timers s) -> (k <= x)%N) /\ (k <= next_handle s)%N.

Lemma handles_from_step (k : N) (s : state) (e : event) :
  handles_from k s -> handles_from k (step s e).
Proof.
  intros [Hx Hn].
  assert (Hclear : forall h t, handles_from k t -> handles_from k (clearInterval h t)).
  { intros h t [Ht Hnt]. split; [|exact Hnt].
    intros x Hin. apply Ht. eapply in_remove; exact Hin. }
  assert (Hstop : forall t, handles_from k t -> handles_from k (stopInterval t)).
  { intros t Ht. unfold stopInterval. destruct (intervalRef t) as [h|]; [|exact Ht].
    destruct (Hclear h t Ht) as [A B]. split; assumption. }
  assert (Hs : handles_from k s) by (split; assumption).
  destruct e; simpl.
  - unfold startStopwatch. destruct (negb (isRunning s)); [|exact Hs].
    split; simpl; [|lia]. intros x [<-|Hin]; [exact Hn | auto].
  - unfold pauseStopwatch. destruct (Hstop s Hs) as [A B]. split; assumption.
  - unfold resetStopwatch. destruct (Hstop s Hs) as [A B]. split; assumption.
  - unfold recordLap. destruct (isRunning s && (0 <? time s)); [split; assumption | exact Hs].
  - split; assumption.
  - unfold tick. destruct (existsb (N.eqb h) (timers s)); [split; assumption | exact Hs].
  - split; assumption.
Qed.

Lemma handles_from_run (k : N) (evs : list event) : forall s,
  handles_from k s -> handles_from k (run evs s).
Proof.
  induction evs as [|e evs IH]; intros s Hs; simpl; [exact Hs|].
  apply IH, handles_from_step, Hs.
Qed.

Lemma old_tick_noop (k h : N) (evs : list event) (s : state) :
  timers s = [] -> (k <= next_handle s)%N -> (h < k)%N ->
  tick h (run evs s) = run evs s.
Proof.
  intros Ht Hk Hh.
  destruct (handles_from_run k evs s) as [Hx _].
  { split; [rewrite Ht; intros x [] | exact Hk]. }
  unfold tick. rewrite not_in_existsb; [reflexivity|].
  intros Hin. apply Hx in Hin. lia.
Qed.

End RunFacts.

(** * The claims about the stopwatch *)
Module Claims.
Import Stopwatch StopwatchFacts RunFacts.

(** Start, tick at 1000 ms, then two laps with no tick in between. *)
Definition double_lap : list event := [Start; Advance 1000; Tick 1; Lap; Lap].

(** Laps at cumulative times 1000, 2500 and 4000 ms. *)
Definition three_laps : list event :=
  [Start; Advance 1000; Tick 1; Lap; Advance 1500; Tick 1; Lap;
   Advance 1500; Tick 1; Lap].

(** Start, 500 ms, pause, start, 300 ms, pause (sampled before each pause). *)
Definition pause_resume : list event :=
  [Start; Advance 500; Tick 1; Pause; Start; Advance 300; Tick 2; Pause].

(** C1 (as stated, refuted): [totalTime] is not strictly increasing in
    every reachable state: two laps recorded with no sample in between
    both carry [totalTime = 1000]. *)
Lemma laps_strictly_increasing_fails :
  ~ (forall s, reachable s -> totals_increasing (lapTimes s)).
Proof.
  intros H.
  assert (Hr : reachable (run double_lap (init 0))) by (exists 0, double_lap; reflexivity).
  specialize (H _ Hr 0%nat 1%nat). vm_compute in H.
  specialize (H _ _ ltac:(lia) eq_refl eq_refl). discriminate H.
Qed.

(** C1 (amended): in every reachable state [totalTime] is non-decreasing
    along the lap history (in chronological order), and the sum of all
    [lapTime]s equals the last entry's [totalTime] (0 for no entry). *)
Theorem laps_totals_invariant (s : state) (Hr : reachable s) :
  totals_nondecreasing (lapTimes s) /\
  sum_lapTime (lapTimes s) = last_totalTime (lapTimes s).
Proof.
  destruct (reachable_inv s Hr) as [_ _ _ _ _ _ _ Hso Hsum]. auto.
Qed.

Lemma laps_totals_invariant_witness :
  reachable (run three_laps (init 0)) /\
  totals_nondecreasing (lapTimes (run three_laps (init 0))) /\
  sum_lapTime (lapTimes (run three_laps (init 0))) =
  last_totalTime (lapTimes (run three_laps (init 0))).
Proof.
  assert (Hr : reachable (run three_laps (init 0))) by (exists 0, three_laps; reflexivity).
  split; [exact Hr | apply (laps_totals_invariant _ Hr)].
Defined.

(** C2: in a reachable state that is running with [time > 0], [recordLap]
    appends exactly one entry, numbered one past the previous count, with
    [totalTime = time] and [lapTime = time - ] the last [totalTime] (0 if
    none); laps at 1000, 2500 and 4000 ms give [lapTime]s
    [1000; 1500; 1500] and [lapNumber]s [1; 2; 3]. *)
Theorem recordLap_appends (s : state) (Hr : reachable s)
  (Hrun : isRunning s = true) (Hpos : 0 < time s) :
  (exists e,
    lapTimes (recordLap s) = lapTimes s ++ [e] /\
    lapNumber e = Z.of_nat (List.length (lapTimes s)) + 1 /\
    totalTime e = time s /\
    lapTime e = time s - last_totalTime (lapTimes s)) /\
  map lapTime (lapTimes (run three_laps (init 0))) = [1000; 1500; 1500] /\
  map totalTime (lapTimes (run three_laps (init 0))) = [1000; 2500; 4000] /\
  map lapNumber (lapTimes (run three_laps (init 0))) = [1; 2; 3].
Proof.
  split; [|vm_compute; auto].
  destruct (reachable_inv s Hr) as [_ _ _ _ Hc _ _ _ _].
  unfold recordLap. rewrite Hrun. apply Z.ltb_lt in Hpos as Hp. rewrite Hp. simpl.
  eexists. split; [reflexivity|]. simpl. split; [exact Hc|]. split; [reflexivity|].
  destruct (0 <? Z.of_nat (List.length (lapTimes s))) eqn:L; [reflexivity|].
  apply Z.ltb_ge in L.
  destruct (lapTimes s) as [|x l]; [unfold last_totalTime; simpl; lia | simpl in L; lia].
Qed.

Lemma recordLap_appends_witness :
  let s := run [Start; Advance 700; Tick 1] (init 0) in
  reachable s /\ isRunning s = true /\ 0 < time s /\
  exists e, lapTimes (recordLap s) = lapTimes s ++ [e] /\ lapNumber e = 1.
Proof.
  intros s.
  assert (Hr : reachable s) by (exists 0, [Start; Advance 700; Tick 1]; reflexivity).
  assert (Hrun : isRunning s = true) by reflexivity.
  assert (Hpos : 0 < time s) by (vm_compute; reflexivity).
  destruct (recordLap_appends s Hr Hrun Hpos) as [[e [He [Hn _]]] _].
  split; [exact Hr|]. split; [exact Hrun|]. split; [exact Hpos|].
  exists e. split; [exact He | rewrite Hn; reflexivity].
Defined.

(** C4: [startStopwatch] from a stopped state with accumulated [time s]
    sets the origin [startTimeRef] to [clock s - time s]; as long as
    no pause or reset follows, the stopwatch stays running with that
    origin, and a sample of its interval gives
    [time = now - (start instant) + time s]; [startStopwatch] is a no-op
    while running; start, 500 ms, pause, start, 300 ms, pause gives 800. *)
Theorem start_resumes (s : state) (evs : list event)
  (Hstop : isRunning s = false) (Hevs : forallb no_stop evs = true) :
  let s2 := run evs (startStopwatch s) in
  isRunning s2 = true /\
  startTimeRef s2 = clock s - time s /\
  (exists h, intervalRef s2 = Some h /\
     time (tick h s2) = clock s2 - clock s + time s) /\
  (forall s', isRunning s' = true -> startStopwatch s' = s') /\
  time (run pause_resume (init 0)) = 800.
Proof.
  intros s2. subst s2.
  destruct (running_preserved (next_handle s) (clock s - time s) evs
              (startStopwatch s) Hevs) as [R [Hi [Ht Ho]]];
    try (unfold startStopwatch; rewrite Hstop; simpl; auto; fail).
  split; [exact R|]. split; [exact Ho|]. split.
  - exists (next_handle s). split; [exact Hi|].
    unfold tick. rewrite (in_existsb _ _ Ht). simpl. rewrite Ho. lia.
  - split; [|reflexivity].
    intros s' R'. unfold startStopwatch. rewrite R'. reflexivity.
Qed.

Lemma start_resumes_witness :
  isRunning (init 0) = false /\ forallb no_stop [Advance 250] = true /\
  time (tick 1 (run [Advance 250] (startStopwatch (init 0)))) = 250.
Proof.
  assert (H1 : isRunning (init 0) = false) by reflexivity.
  assert (H2 : forallb no_stop [Advance 250] = true) by reflexivity.
  split; [exact H1|]. split; [exact H2|].
  destruct (start_resumes (init 0) [Advance 250] H1 H2) as [_ [_ [[h [Hi Ht]] _]]].
  simpl in Hi. injection Hi as <-. rewrite Ht. reflexivity.
Defined.

(** C5: [resetStopwatch], in any reachable state, running or not, leaves
    the stopwatch stopped with [time = 0], no laps, lap counter 1 and no
    live interval, as in a fresh component; whatever follows, the first
    lap recorded afterwards has [lapNumber = 1]. *)
Theorem reset_fresh (s : state) (Hr : reachable s) :
  let r := resetStopwatch s in
  isRunning r = false /\ time r = 0 /\ lapTimes r = [] /\ lapCounter r = 1 /\
  intervalRef r = None /\ timers r = [] /\
  (forall evs, match lapTimes (run evs r) with
               | e :: _ => lapNumber e = 1
               | [] => True
               end).
Proof.
  intros r. pose proof (reachable_inv s Hr) as Hs.
  assert (Hri : inv r) by (apply reset_inv, Hs).
  unfold r, resetStopwatch. rewrite (stopInterval_eq s Hs). simpl.
  repeat split; auto.
  intros evs. pose proof (run_inv evs r Hri) as [_ _ _ _ _ Hnum _ _ _].
  unfold r, resetStopwatch in Hnum. rewrite (stopInterval_eq s Hs) in Hnum.
  destruct (lapTimes _) as [|e l]; [exact I|].
  apply (Hnum 0%nat). reflexivity.
Qed.

Lemma reset_fresh_witness :
  reachable (run [Start; Advance 40; Tick 1; Lap] (init 0)) /\
  time (resetStopwatch (run [Start; Advance 40; Tick 1; Lap] (init 0))) = 0.
Proof.
  assert (Hr : reachable (run [Start; Advance 40; Tick 1; Lap] (init 0)))
    by (exists 0, [Start; Advance 40; Tick 1; Lap]; reflexivity).
  split; [exact Hr|]. apply (reset_fresh _ Hr).
Defined.

(** C6: in a reachable state, an operation whose precondition fails leaves
    the whole state unchanged: [recordLap] while stopped, [recordLap] at
    [time = 0], [startStopwatch] while running, [pauseStopwatch] while
    stopped. *)
Theorem invalid_calls_noop (s : state) (Hr : reachable s) :
  (isRunning s = false -> recordLap s = s) /\
  (time s = 0 -> recordLap s = s) /\
  (isRunning s = true -> startStopwatch s = s) /\
  (isRunning s = false -> pauseStopwatch s = s).
Proof.
  pose proof (reachable_inv s Hr) as Hs.
  split; [|split; [|split]]; intros H.
  - unfold recordLap. rewrite H. reflexivity.
  - unfold recordLap. rewrite H. rewrite Bool.andb_false_r. reflexivity.
  - unfold startStopwatch. rewrite H. reflexivity.
  - destruct Hs as [Hi _ _ _ _ _ _ _ _]. rewrite H in Hi. destruct Hi as [Hir Ht].
    unfold pauseStopwatch, stopInterval. rewrite Hir.
    destruct s; simpl in *. subst. reflexivity.
Qed.

Lemma invalid_calls_noop_witness :
  reachable (init 5) /\ recordLap (init 5) = init 5.
Proof.
  assert (Hr : reachable (init 5)) by (exists 5, []; reflexivity).
  split; [exact Hr|]. apply (invalid_calls_noop _ Hr). reflexivity.
Defined.

(** C7: [clearLaps] empties the laps and sets the counter back to 1, so the
    next lap recorded is number 1, and leaves [isRunning] and [time] as
    they were. *)
Theorem clearLaps_frame (s : state) :
  isRunning (clearLaps s) = isRunning s /\ time (clearLaps s) = time s /\
  lapTimes (clearLaps s) = [] /\ lapCounter (clearLaps s) = 1 /\
  (isRunning s = true -> 0 < time s ->
   map lapNumber (lapTimes (recordLap (clearLaps s))) = [1]).
Proof.
  repeat split. intros R P.
  unfold recordLap. simpl. rewrite R. apply Z.ltb_lt in P. rewrite P. reflexivity.
Qed.

(** C8: once [pauseStopwatch], [resetStopwatch] or the teardown has run
    in a reachable state, no interval handed out before it ([h <
    next_handle]) ever fires again: after any further events its
    callback leaves the state, hence [time], unchanged. *)
Theorem no_tick_after_cancel (s : state) (Hr : reachable s)
  (h : N) (Hh : (h < next_handle s)%N) (evs : list event) :
  tick h (run evs (pauseStopwatch s)) = run evs (pauseStopwatch s) /\
  tick h (run evs (resetStopwatch s)) = run evs (resetStopwatch s) /\
  tick h (run evs (unmount s)) = run evs (unmount s).
Proof.
  pose proof (reachable_inv s Hr) as Hs.
  split; [|split]; apply (old_tick_noop (next_handle s)); try exact Hh.
  - unfold pauseStopwatch. rewrite (stopInterval_eq s Hs). reflexivity.
  - unfold pauseStopwatch. rewrite (stopInterval_eq s Hs). simpl. lia.
  - unfold resetStopwatch. rewrite (stopInterval_eq s Hs). reflexivity.
  - unfold resetStopwatch. rewrite (stopInterval_eq s Hs). simpl. lia.
  - destruct Hs as [Hi _ _ _ _ _ _ _ _]. unfold unmount.
    destruct (isRunning s).
    + destruct Hi as [h' [Hir Ht]]. rewrite Hir. simpl. rewrite Ht. apply remove_single.
    + destruct Hi as [Hir Ht]. rewrite Hir. exact Ht.
  - unfold unmount. destruct (intervalRef s); simpl; lia.
Qed.

Lemma no_tick_after_cancel_witness :
  let s := run [Start; Advance 30; Tick 1] (init 0) in
  reachable s /\ (1 < next_handle s)%N /\
  time (tick 1 (run [Advance 90] (pauseStopwatch s))) = 30.
Proof.
  intros s.
  assert (Hr : reachable s) by (exists 0, [Start; Advance 30; Tick 1]; reflexivity).
  assert (Hh : (1 < next_handle s)%N) by (vm_compute; reflexivity).
  split; [exact Hr|]. split; [exact Hh|].
  destruct (no_tick_after_cancel s Hr 1%N Hh [Advance 90]) as [E _].
  rewrite E. reflexivity.
Defined.

(** C9: in every reachable state the lap counter is the number of laps
    plus one, and the lap at index [i] (chronological, from 0) has
    [lapNumber = i + 1]. *)
Theorem lapCounter_tracks_laps (s : state) (Hr : reachable s) :
  lapCounter s = Z.of_nat (List.length (lapTimes s)) + 1 /\
  (forall i e, nth_error (lapTimes s) i = Some e -> lapNumber e = Z.of_nat i + 1).
Proof.
  destruct (reachable_inv s Hr) as [_ _ _ _ Hc Hnum _ _ _]. auto.
Qed.

Lemma lapCounter_tracks_laps_witness :
  reachable (run three_laps (init 0)) /\
  lapCounter (run three_laps (init 0)) = 4.
Proof.
  assert (Hr : reachable (run three_laps (init 0))) by (exists 0, three_laps; reflexivity).
  split; [exact Hr|].
  destruct (lapCounter_tracks_laps _ Hr) as [Hc _]. rewrite Hc. reflexivity.
Defined.

(** C10: [recordLap] while running at a positive [time] equal to the last
    lap's [totalTime] still appends a lap, with [lapTime = 0] and the same
    [totalTime]. *)
Theorem recordLap_repeat (s : state) (Hrun : isRunning s = true)
  (Hpos : 0 < time s) (Hne : lapTimes s <> [])
  (Hsame : last_totalTime (lapTimes s) = time s) :
  exists e, lapTimes (recordLap s) = lapTimes s ++ [e] /\
    lapTime e = 0 /\ totalTime e = last_totalTime (lapTimes s).
Proof.
  unfold recordLap. rewrite Hrun. apply Z.ltb_lt in Hpos as Hp. rewrite Hp. simpl.
  eexists. split; [reflexivity|]. simpl.
  assert (L : (0 <? Z.of_nat (List.length (lapTimes s))) = true).
  { apply Z.ltb_lt. destruct (lapTimes s); [congruence | simpl; lia]. }
  rewrite L. lia.
Qed.

Lemma recordLap_repeat_witness :
  let s := run [Start; Advance 1000; Tick 1; Lap] (init 0) in
  isRunning s = true /\ 0 < time s /\ lapTimes s <> [] /\
  last_totalTime (lapTimes s) = time s /\
  map lapTime (lapTimes (recordLap s)) = [1000; 0].
Proof.
  intros s.
  assert (H1 : isRunning s = true) by reflexivity.
  assert (H2 : 0 < time s) by (vm_compute; reflexivity).
  assert (H3 : lapTimes s <> []) by discriminate.
  assert (H4 : last_totalTime (lapTimes s) = time s) by reflexivity.
  split; [exact H1|]. split; [exact H2|]. split; [exact H3|]. split; [exact H4|].
  destruct (recordLap_repeat s H1 H2 H3 H4) as [e [E [Z0 _]]].
  rewrite E, map_app. simpl. rewrite Z0. reflexivity.
Defined.

End Claims.

(** * Further properties of [formatTime] *)
Module FormatExtra.
Local Open Scope string_scope.
Import Format FormatFacts.

Lemma mod_div_tenths (t c : Z) :
  0 < c -> (t mod (10 * c)) / 10 = (t / 10) mod c.
Proof.
  intros Hc.
  rewrite Z.mod_eq by lia. rewrite <- Z.div_div by lia.
  rewrite (Z.mod_eq (t / 10) c) by lia.
  replace (t - 10 * c * (t / 10 / c)) with (t + (- (c * (t / 10 / c))) * 10) by ring.
  rewrite Z.div_add by lia. ring.
Qed.

(** [formatTime] reads [t] only through its centisecond count [t / 10]. *)
Lemma formatTime_centis (t : Z) :
  0 <= t ->
  formatTime t =
  padStart (toString (t / 10 / 6000)) 2 "0" ++ ":" ++
  padStart (toString ((t / 10) mod 6000 / 100)) 2 "0" ++ "." ++
  padStart (toString ((t / 10) mod 100)) 2 "0".
Proof.
  intros Ht. unfold formatTime.
  rewrite !Z.rem_mod_nonneg by lia.
  rewrite Z.div_div by lia.
  replace 60000 with (10 * 6000) by reflexivity.
  replace 1000 with (10 * 100) at 1 by reflexivity.
  replace 1000 with (10 * 100) by reflexivity.
  rewrite <- (Z.div_div (t mod (10 * 6000)) 10 100) by lia.
  rewrite !mod_div_tenths by lia. reflexivity.
Qed.

Fixpoint all_digits (s : string) : bool :=
  match s with
  | EmptyString => true
  | String c s' =>
      match digit_val c with
      | Some _ => all_digits s'
      | None => false
      end
  end.

Lemma dec_value_from_all_digits (s : string) : forall v w,
  dec_value_from v s = Some w -> all_digits s = true.
Proof.
  induction s as [|c s IH]; intros v w H; simpl in *; [reflexivity|].
  destruct (digit_val c); [eapply IH; exact H | discriminate].
Qed.

(** A separator that is not a digit splits a digit prefix off uniquely. *)
Lemma split_digits (a1 a2 r1 r2 : string) (c : ascii) :
  all_digits a1 = true -> all_digits a2 = true -> digit_val c = None ->
  a1 ++ String c r1 = a2 ++ String c r2 -> a1 = a2 /\ r1 = r2.
Proof.
  revert a2. induction a1 as [|x a1 IH]; intros a2 H1 H2 Hc E;
    destruct a2 as [|y a2]; simpl in *.
  - injection E as E. auto.
  - injection E as <- _. rewrite Hc in H2. discriminate.
  - injection E as -> _. rewrite Hc in H1. discriminate.
  - injection E as <- E.
    destruct (digit_val x); [|discriminate].
    destruct (IH a2 H1 H2 Hc E) as [-> ->]. auto.
Qed.

Lemma field_digits (x : Z) :
  0 <= x ->
  all_digits (padStart (toString x) 2 "0") = true /\
  dec_value (padStart (toString x) 2 "0") = Some (Z.to_N x).
Proof.
  intros Hx.
  assert (V : dec_value (padStart (toString x) 2 "0") = Some (Z.to_N x)).
  { rewrite padStart_value, toString_nonneg by exact Hx. apply N_toString_value. }
  split; [eapply dec_value_from_all_digits; exact V | exact V].
Qed.

(** X: for non-negative times, two times are displayed identically exactly
    when they fall in the same centisecond ([t / 10]). *)
Theorem formatTime_same_iff (t1 t2 : Z) (H1 : 0 <= t1) (H2 : 0 <= t2) :
  formatTime t1 = formatTime t2 <-> t1 / 10 = t2 / 10.
Proof.
  rewrite (formatTime_centis t1 H1), (formatTime_centis t2 H2).
  split; [|intros E; rewrite E; reflexivity].
  assert (Q1 : 0 <= t1 / 10) by (apply Z.div_pos; lia).
  assert (Q2 : 0 <= t2 / 10) by (apply Z.div_pos; lia).
  set (q1 := t1 / 10) in *. set (q2 := t2 / 10) in *.
  intros E. cbn [append] in E.
  assert (Hm : forall q, 0 <= q -> 0 <= q / 6000) by (intros; apply Z.div_pos; lia).
  assert (Hs : forall q, 0 <= q -> 0 <= q mod 6000 / 100)
    by (intros; apply Z.div_pos; [apply Z.mod_pos_bound | ]; lia).
  assert (Hc : forall q, 0 <= q -> 0 <= q mod 100)
    by (intros; apply Z.mod_pos_bound; lia).
  destruct (field_digits _ (Hm q1 Q1)) as [Dm1 Vm1].
  destruct (field_digits _ (Hm q2 Q2)) as [Dm2 Vm2].
  destruct (field_digits _ (Hs q1 Q1)) as [Ds1 Vs1].
  destruct (field_digits _ (Hs q2 Q2)) as [Ds2 Vs2].
  destruct (field_digits _ (Hc q1 Q1)) as [Dc1 Vc1].
  destruct (field_digits _ (Hc q2 Q2)) as [Dc2 Vc2].
  apply split_digits in E as [Em E]; [|assumption | assumption | reflexivity].
  apply split_digits in E as [Es Ec]; [|assumption | assumption | reflexivity].
  rewrite Em in Vm1. rewrite Es in Vs1. rewrite Ec in Vc1.
  rewrite Vm1 in Vm2. rewrite Vs1 in Vs2. rewrite Vc1 in Vc2.
  injection Vm2 as Vm. injection Vs2 as Vs. injection Vc2 as Vc.
  apply Z2N.inj in Vm; [|apply Hm; lia | apply Hm; lia].
  apply Z2N.inj in Vs; [|apply Hs; lia | apply Hs; lia].
  apply Z2N.inj in Vc; [|apply Hc; lia | apply Hc; lia].
  rewrite (Z.div_mod q1 6000), (Z.div_mod q2 6000) by lia.
  rewrite (Z.div_mod (q1 mod 6000) 100), (Z.div_mod (q2 mod 6000) 100) by lia.
  rewrite !Z.mod_mod_divide by (exists 60; reflexivity).
  rewrite Vm, Vs, Vc. reflexivity.
Qed.

Lemma formatTime_same_iff_witness :
  0 <= 61005 /\ 0 <= 61009 /\ formatTime 61005 = formatTime 61009.
Proof.
  assert (A : 0 <= 61005) by lia. assert (B : 0 <= 61009) by lia.
  split; [exact A|]. split; [exact B|].
  apply (formatTime_same_iff 61005 61009 A B). reflexivity.
Defined.

(** X: below 100 minutes the display is always eight characters long. *)
Theorem formatTime_length (t : Z) (H0 : 0 <= t) (H1 : t < 6000000) :
  String.length (formatTime t) = 8%nat.
Proof.
  unfold formatTime. rewrite !Z.rem_mod_nonneg by lia.
  destruct (padded_field (t / 60000) 100) as [Lm _];
    [apply Z.div_pos; lia | apply Z.div_lt_upper_bound; lia | lia |].
  destruct (padded_field (t mod 60000 / 1000) 60) as [Ls _];
    [apply Z.div_pos; [apply Z.mod_pos_bound|]; lia
    | apply Z.div_lt_upper_bound; [lia|]; pose proof (Z.mod_pos_bound t 60000); lia
    | lia |].
  destruct (padded_field (t mod 1000 / 10) 100) as [Lc _];
    [apply Z.div_pos; [apply Z.mod_pos_bound|]; lia
    | apply Z.div_lt_upper_bound; [lia|]; pose proof (Z.mod_pos_bound t 1000); lia
    | lia |].
  rewrite !length_append_str, Lm, Ls, Lc. reflexivity.
Qed.

Lemma formatTime_length_witness :
  0 <= 123456 /\ 123456 < 6000000 /\ String.length (formatTime 123456) = 8%nat.
Proof.
  assert (A : 0 <= 123456) by lia. assert (B : 123456 < 6000000) by lia.
  split; [exact A|]. split; [exact B|]. apply (formatTime_length _ A B).
Defined.

End FormatExtra.

(** * Further properties of the component: keys, buttons, timing, lap list *)
Module StopwatchExtra.
Import Stopwatch View StopwatchFacts RunFacts.

(** Events other than a start or a reset. *)
Definition no_start_reset (e : event) : bool :=
  match e with
  | Start | Reset => false
  | _ => true
  end.

(** Laps at cumulative times 1000, 2500 and 4000 ms. *)
Definition three_laps_ev : list event :=
  [Start; Advance 1000; Tick 1; Lap; Advance 1500; Tick 1; Lap;
   Advance 1500; Tick 1; Lap].

(** X: a key event whose default the handler does not prevent leaves the
    state unchanged, and Space always flips [isRunning]. *)
Theorem handleKeyPress_effects (ev : keyEvent) (s : state) :
  (snd (handleKeyPress ev s) = false -> fst (handleKeyPress ev s) = s) /\
  (code ev = "Space"%string ->
   snd (handleKeyPress ev s) = true /\
   isRunning (fst (handleKeyPress ev s)) = negb (isRunning s)).
Proof.
  unfold handleKeyPress. split.
  - destruct (String.eqb (code ev) "Space"); [discriminate|].
    destruct (String.eqb (code ev) "KeyR");
      [destruct (ctrlKey ev || metaKey ev); [discriminate | reflexivity]|].
    destruct (String.eqb (code ev) "KeyL");
      [destruct (ctrlKey ev || metaKey ev); [discriminate | reflexivity] | reflexivity].
  - intros ->. simpl. split; [reflexivity|].
    destruct (isRunning s) eqn:R.
    + reflexivity.
    + unfold startStopwatch. rewrite R. reflexivity.
Qed.



(** X: in a reachable state, the Clear button is disabled only where
    [clearLaps] would change nothing. *)
Theorem clearButton_disabled_noop (s : state) (Hr : reachable s)
  (Hd : clearButtonDisabled s = true) : clearLaps s = s.
Proof.
  destruct (reachable_inv s Hr) as [_ _ _ _ Hc _ _ _ _].
  unfold clearButtonDisabled in Hd. apply Nat.eqb_eq, length_zero_iff_nil in Hd.
  rewrite Hd in Hc. simpl in Hc.
  destruct s; simpl in *. subst. reflexivity.
Qed.

Lemma clearButton_disabled_noop_witness :
  reachable (init 0) /\ clearButtonDisabled (init 0) = true /\
  clearLaps (init 0) = init 0.
Proof.
  assert (Hr : reachable (init 0)) by (exists 0, []; reflexivity).
  assert (Hd : clearButtonDisabled (init 0) = true) by reflexivity.
  split; [exact Hr|]. split; [exact Hd|]. apply (clearButton_disabled_noop _ Hr Hd).
Defined.

(** X: in a reachable state the elapsed time never decreases, except
    through a reset. *)
Theorem time_monotone (s : state) (e : event) (Hr : reachable s)
  (He : e <> Reset) : time s <= time (step s e).
Proof.
  pose proof (reachable_inv s Hr) as Hs.
  destruct Hs as [Hi _ Ho _ _ _ _ _ _].
  destruct e; simpl.
  - unfold startStopwatch. destruct (negb (isRunning s)); simpl; lia.
  - unfold pauseStopwatch, stopInterval. destruct (intervalRef s); simpl; lia.
  - congruence.
  - unfold recordLap. destruct (isRunning s && (0 <? time s)); simpl; lia.
  - simpl. lia.
  - unfold tick. destruct (existsb (N.eqb h) (timers s)) eqn:L; simpl; [|lia].
    destruct (isRunning s) eqn:R; [specialize (Ho eq_refl); lia|].
    destruct Hi as [_ Ht]. rewrite Ht in L. discriminate.
  - lia.
Qed.

Lemma time_monotone_witness :
  let s := run [Start; Advance 20] (init 0) in
  reachable s /\ Tick 1 <> Reset /\ time (step s (Tick 1)) = 20.
Proof.
  intros s.
  assert (Hr : reachable s) by (exists 0, [Start; Advance 20]; reflexivity).
  assert (He : Tick 1 <> Reset) by discriminate.
  split; [exact Hr|]. split; [exact He|].
  pose proof (time_monotone s (Tick 1) Hr He). reflexivity.
Defined.

Lemma stopped_preserved (evs : list event) : forall s,
  forallb no_start_reset evs = true ->
  isRunning s = false -> timers s = [] ->
  isRunning (run evs s) = false /\ timers (run evs s) = [] /\
  time (run evs s) = time s.
Proof.
  induction evs as [|e evs IH]; intros s Hev R T; simpl; [auto|].
  simpl in Hev. apply Bool.andb_true_iff in Hev as [He Hev].
  assert (K : isRunning (step s e) = false /\ timers (step s e) = [] /\
              time (step s e) = time s).
  { destruct e; try discriminate; simpl.
    - unfold pauseStopwatch, stopInterval.
      destruct (intervalRef s); simpl; rewrite ?T; auto.
    - unfold recordLap. rewrite R. auto.
    - auto.
    - unfold tick. rewrite T. auto.
    - auto. }
  destruct K as [R' [T' E']].
  destruct (IH (step s e) Hev R' T') as [A [B C]].
  rewrite E' in C. auto.
Qed.

(** X: while stopped, the elapsed time stays frozen and the stopwatch
    stays stopped through any events other than a start or a reset
    (pause, laps, clear, interval callbacks, passing time). *)
Theorem time_frozen_while_stopped (s : state) (evs : list event)
  (Hr : reachable s) (R : isRunning s = false)
  (Hev : forallb no_start_reset evs = true) :
  time (run evs s) = time s /\ isRunning (run evs s) = false.
Proof.
  destruct (reachable_inv s Hr) as [Hi _ _ _ _ _ _ _ _].
  rewrite R in Hi. destruct Hi as [_ T].
  destruct (stopped_preserved evs s Hev R T) as [A [_ C]]. auto.
Qed.

Lemma time_frozen_while_stopped_witness :
  let s := run [Start; Advance 70; Tick 1; Pause] (init 0) in
  reachable s /\ isRunning s = false /\
  forallb no_start_reset [Advance 500; Tick 1; Lap; Pause] = true /\
  time (run [Advance 500; Tick 1; Lap; Pause] s) = 70.
Proof.
  intros s.
  assert (Hr : reachable s) by (exists 0, [Start; Advance 70; Tick 1; Pause]; reflexivity).
  assert (R : isRunning s = false) by reflexivity.
  assert (Hev : forallb no_start_reset [Advance 500; Tick 1; Lap; Pause] = true)
    by reflexivity.
  split; [exact Hr|]. split; [exact R|]. split; [exact Hev|].
  destruct (time_frozen_while_stopped s _ Hr R Hev) as [E _]. rewrite E. reflexivity.
Defined.







Lemma rows_from_nth (l : list LapTime) : forall i k,
  nth_error (rows_from i l) k =
  option_map (fun lap => mkRow (i + k) (id lap) (lapNumber lap)
                 (Format.formatTime (lapTime lap)) (Format.formatTime (totalTime lap))
                 (Nat.eqb (Nat.modulo (i + k) 2) 0))
             (nth_error l k).
Proof.
  induction l as [|lap l IH]; intros i k; [destruct k; reflexivity|].
  destruct k as [|k]; simpl.
  - rewrite Nat.add_0_r. reflexivity.
  - rewrite IH. rewrite Nat.add_succ_r. reflexivity.
Qed.

Lemma rows_from_length (l : list LapTime) : forall i,
  List.length (rows_from i l) = List.length l.
Proof. induction l as [|lap l IH]; intros i; simpl; [reflexivity | now rewrite IH]. Qed.

(** X: in a reachable state the lap list has one row per lap, newest first:
    row [k] shows the lap at position [n - 1 - k] of the [n] laps, labelled
    "Lap [n - k]", with its split and total formatted by [formatTime]. *)
Theorem lapRows_newest_first (s : state) (Hr : reachable s) :
  List.length (lapRows s) = List.length (lapTimes s) /\
  forall k row, nth_error (lapRows s) k = Some row ->
  exists lap,
    nth_error (lapTimes s) (List.length (lapTimes s) - S k) = Some lap /\
    rowIndex row = k /\ rowKey row = id lap /\
    rowNumber row = Z.of_nat (List.length (lapTimes s)) - Z.of_nat k /\
    rowSplit row = Format.formatTime (lapTime lap) /\
    rowTotal row = Format.formatTime (totalTime lap).
Proof.
  destruct (reachable_inv s Hr) as [_ _ _ _ _ Hnum _ _ _].
  unfold lapRows.
  destruct (Nat.ltb 0 (List.length (lapTimes s))) eqn:L.
  - rewrite rows_from_length, length_rev. split; [reflexivity|].
    intros k row H. rewrite rows_from_nth, nth_error_rev in H.
    destruct (Nat.ltb_spec k (List.length (lapTimes s))) as [Hk|Hk]; [|discriminate].
    destruct (nth_error (lapTimes s) (List.length (lapTimes s) - S k)) as [lap|] eqn:E;
      [|discriminate].
    simpl in H. injection H as <-. exists lap. simpl.
    rewrite (Hnum _ _ E). repeat split; auto. lia.
  - apply Nat.ltb_ge in L. split; [simpl; lia|].
    intros k row H. destruct k; discriminate.
Qed.

Lemma lapRows_newest_first_witness :
  reachable (run three_laps_ev (init 0)) /\
  map rowNumber (lapRows (run three_laps_ev (init 0))) = [3; 2; 1].
Proof.
  assert (Hr : reachable (run three_laps_ev (init 0))) by (exists 0, three_laps_ev; reflexivity).
  split; [exact Hr|].
  destruct (lapRows_newest_first _ Hr) as [Hl _]. vm_compute. reflexivity.
Defined.

(** X: from a reachable stopped state, pressing Space twice at the same
    instant (whether or not an interval callback fires in between) brings
    back the stopped state with the same elapsed time, laps and counter,
    and no live interval. *)
Theorem space_twice_same_instant (s : state) (h : N) (Hr : reachable s)
  (R : isRunning s = false) :
  let s' := onSpace (tick h (onSpace s)) in
  isRunning s' = false /\ time s' = time s /\ lapTimes s' = lapTimes s /\
  lapCounter s' = lapCounter s /\ intervalRef s' = None /\ timers s' = [].
Proof.
  destruct (reachable_inv s Hr) as [Hi _ _ _ _ _ _ _ _].
  rewrite R in Hi. destruct Hi as [Hir Ht].
  destruct s as [tm r l ir st c ts nh ck m]. simpl in Hir, Ht, R. subst.
  intros s'. subst s'.
  set (s1 := mkState tm true l (Some nh) (ck - tm) c [nh] (nh + 1)%N ck m).
  assert (E1 : onSpace (mkState tm false l None st c [] nh ck m) = s1) by reflexivity.
  rewrite E1.
  assert (E2 : exists t, tick h s1 =
                 mkState t true l (Some nh) (ck - tm) c [nh] (nh + 1)%N ck m /\ t = tm).
  { unfold tick. simpl. destruct (N.eqb h nh).
    - exists (ck - (ck - tm)). split; [reflexivity | lia].
    - exists tm. split; reflexivity. }
  destruct E2 as [t [E2 Et]]. rewrite E2. subst t.
  unfold onSpace, pauseStopwatch, stopInterval, clearInterval. simpl.
  destruct (N.eq_dec nh nh) as [_|NE]; [|congruence]. simpl. repeat split.
Qed.

Lemma space_twice_same_instant_witness :
  let s := run [Start; Advance 40; Tick 1; Pause] (init 0) in
  reachable s /\ isRunning s = false /\
  time (onSpace (tick 2 (onSpace s))) = 40.
Proof.
  intros s.
  assert (Hr : reachable s) by (exists 0, [Start; Advance 40; Tick 1; Pause]; reflexivity).
  assert (R : isRunning s = false) by reflexivity.
  split; [exact Hr|]. split; [exact R|].
  destruct (space_twice_same_instant s 2 Hr R) as [_ [E _]]. rewrite E. reflexivity.
Defined.

Section ParticleFacts.
Variable num : Type.
Variables (add sub : num -> num -> num) (gt : num -> num -> bool).
Variables (zero two_hundredths tenth : num).


End ParticleFacts.

End StopwatchExtra.
